(** * The in-memory Todo store, its HTTP DELETE handler and the sign-in
      handlers

    A shallow embedding of [src/lib/todo.ts] (and its JavaScript twin
    [src/lib/todo.js]), of [src/pages/api/todos/[id].ts] and [[id].js], and
    of [src/pages/api/auth/signin.ts].

    - JavaScript numbers are modelled by [number]: an integer-valued
      double, an infinity, or NaN.  The program only ever builds numbers
      with [Array.length + 1] and [parseInt], both integer valued, so
      fractions are not represented; [-0] is identified with [0] (they are
      equal under [===] and [!==], the only tests the program applies).
    - JavaScript strings are modelled by Rocq strings, read as sequences of
      code units below 256.
    - The module-level [let todosData] is the state that every store
      operation threads; a promise is a function of that state giving its
      settlement and the new state.  The 100 ms of [setTimeout] are not
      modelled: only the effect of the timer callback is.
    - What a handler calls outside its file (the store, the form of the
      request, the authentication provider, the cookie jar, the renderer)
      is recorded call by call when the handler is run. *)

From Stdlib Require Import ZArith List String Ascii Bool Lia.
From Stdlib Require DecimalString DecimalPos.
Import ListNotations.

Open Scope string_scope.
Open Scope Z_scope.

(** ** JavaScript numbers *)

Module Number.

Inductive number : Type :=
| Int (z : Z)
| Infinity (negative : bool)
| NaN.

(** The global [isNaN] on a value that is already a number. *)
Definition isNaN (n : number) : bool :=
  match n with
  | NaN => true
  | _ => false
  end.

(** [a === b] on numbers: NaN is equal to nothing, itself included. *)
Definition strict_eq (a b : number) : bool :=
  match a, b with
  | Int x, Int y => x =? y
  | Infinity s, Infinity t => Bool.eqb s t
  | _, _ => false
  end.

(** [a !== b]. *)
Definition strict_neq (a b : number) : bool := negb (strict_eq a b).

(** [a + b], as far as the program uses it: on integers of the exactly
    representable range. *)
Definition add (a b : number) : number :=
  match a, b with
  | Int x, Int y => Int (x + y)
  | NaN, _ | _, NaN => NaN
  | Infinity s, Infinity t => if Bool.eqb s t then Infinity s else NaN
  | Infinity s, _ | _, Infinity s => Infinity s
  end.

(** The Number value of a mathematical integer: the nearest double, ties
    to even, and an infinity from [2^1024 - 2^970] on.  (Past the 20th
    significant digit [parseInt] may also read a decimal digit as 0; the
    result is a double or an infinity either way, never NaN.) *)
Definition ofInteger (z : Z) : number :=
  let m := Z.abs z in
  if m <? 2 ^ 53 then Int z
  else
    let e := Z.log2 m - 52 in
    let q := m / 2 ^ e in
    let r := m mod 2 ^ e in
    let half := 2 ^ (e - 1) in
    let q' := if (half <? r) || ((r =? half) && Z.odd q) then q + 1 else q in
    let m' := q' * 2 ^ e in
    if 2 ^ 1024 <=? m' then Infinity (z <? 0) else Int (Z.sgn z * m').

(** A positive integer, the spec's type of a Todo id. *)
Definition positive_integer (n : number) : Prop :=
  exists z, n = Int z /\ 0 < z.

End Number.
Export Number.

(** ** [parseInt(string, radix)] (ECMAScript, sec. parseInt) *)

Module ParseInt.

Definition code (c : ascii) : Z := Z.of_nat (nat_of_ascii c).

(** White space and line terminators among the code units below 256:
    TAB, LF, VT, FF, CR, SP and NBSP. *)
Definition isWhiteSpace (c : ascii) : bool :=
  let n := code c in
  ((9 <=? n) && (n <=? 13)) || (n =? 32) || (n =? 160).

(** [TrimString(string, start)]. *)
Fixpoint trimStart (s : string) : string :=
  match s with
  | String c rest => if isWhiteSpace c then trimStart rest else s
  | EmptyString => EmptyString
  end.

(** The value of a digit: [0-9], then [a-z] and [A-Z] for 10 to 35. *)
Definition digitValue (c : ascii) : option Z :=
  let n := code c in
  if (48 <=? n) && (n <=? 57) then Some (n - 48)
  else if (97 <=? n) && (n <=? 122) then Some (n - 87)
  else if (65 <=? n) && (n <=? 90) then Some (n - 55)
  else None.

Definition radixDigit (R : Z) (c : ascii) : option Z :=
  match digitValue c with
  | Some d => if d <? R then Some d else None
  | None => None
  end.

(** The digits of the longest prefix of [s] made of radix-[R] digits. *)
Fixpoint digitPrefix (R : Z) (s : string) : list Z :=
  match s with
  | String c rest =>
      match radixDigit R c with
      | Some d => d :: digitPrefix R rest
      | None => []
      end
  | EmptyString => []
  end.

(** The mathematical integer a digit sequence denotes in radix [R]. *)
Definition mathInt (R : Z) (digits : list Z) : Z :=
  fold_left (fun acc d => acc * R + d) digits 0.

Definition stripSign (s : string) : Z * string :=
  match s with
  | String "-" rest => (-1, rest)
  | String "+" rest => (1, rest)
  | _ => (1, s)
  end.

Definition stripHexPrefix (s : string) : option string :=
  match s with
  | String "0" (String "x" rest) => Some rest
  | String "0" (String "X" rest) => Some rest
  | _ => None
  end.

(** [radix] is taken after [ToInt32]. *)
Definition parseInt (str : string) (radix : Z) : number :=
  let trimmed := trimStart str in
  let '(sign, body) := stripSign trimmed in
  if (radix =? 0) || ((2 <=? radix) && (radix <=? 36)) then
    let stripPrefix := (radix =? 0) || (radix =? 16) in
    let R := if radix =? 0 then 10 else radix in
    let '(R, body) :=
      if stripPrefix then
        match stripHexPrefix body with
        | Some rest => (16, rest)
        | None => (R, body)
        end
      else (R, body) in
    match digitPrefix R body with
    | [] => NaN
    | digits => ofInteger (sign * mathInt R digits)
    end
  else NaN.

End ParseInt.
Export ParseInt.

(** ** The store: [src/lib/todo.ts] *)

Module Todo.

(** [export interface Todo]. *)
Record Todo : Type := { id : number; text : string; completed : bool }.

End Todo.
Abbreviation Todo := Todo.Todo.

Module TodoStore.

(** The value of the module-level variable [todosData]. *)
Definition Store : Type := list Todo.

(** The initial value of [todosData]: the three seed records. *)
Definition todosData_init : Store :=
  [ {| Todo.id := Int 1; Todo.text := "Learn Kung Fu"; Todo.completed := false |};
    {| Todo.id := Int 2; Todo.text := "Watch Westminster"; Todo.completed := true |};
    {| Todo.id := Int 3; Todo.text := "Study Vedanta"; Todo.completed := false |} ].

(** The three states of a promise.  A promise whose timer callback never
    calls [resolve] stays [Pending]; [Rejected] is where a [reject] or a
    throwing executor would lead. *)
Inductive PromiseState (A : Type) : Type :=
| Pending
| Fulfilled (value : A)
| Rejected (reason : string).
Arguments Pending {A}.
Arguments Fulfilled {A} value.
Arguments Rejected {A} reason.

(** A promise of the store, once awaited: its settlement and the value
    of [todosData] its timer callback leaves. *)
Definition Promise (A : Type) : Type := Store -> PromiseState A * Store.

(** [setTimeout(callback, ms)]: the callback runs on the current
    [todosData] when the timer fires. *)
Definition setTimeout {A : Type}
    (callback : Store -> PromiseState A * Store) (ms : Z) : Promise A :=
  callback.

(** [new Promise((resolve) => ...)]: the executor receives [resolve]. *)
Definition newPromise {A : Type}
    (executor : (A -> PromiseState A) -> Promise A) : Promise A :=
  executor Fulfilled.

(** [todosData.length]. *)
Definition Array_length (todosData : Store) : number :=
  Int (Z.of_nat (List.length todosData)).

(** [todosData.push(newTodo)], below the engine's limit on the length of
    an array. *)
Definition Array_push (todosData : Store) (newTodo : Todo) : Store :=
  (todosData ++ [newTodo])%list.

(** [getTodos] resolves with the array [todosData] names when the timer
    fires. *)
Definition getTodos : Promise (list Todo) :=
  newPromise (fun resolve =>
    setTimeout (fun todosData =>
      (resolve todosData, todosData)) 100).

Definition deleteTodo (id : number) : Promise bool :=
  newPromise (fun resolve =>
    setTimeout (fun todosData =>
      let todosData :=
        filter (fun todo => strict_neq (Todo.id todo) id) todosData in
      (resolve true, todosData)) 100).

Definition addTodo (text : string) : Promise Todo :=
  newPromise (fun resolve =>
    setTimeout (fun todosData =>
      let newTodo :=
        {| Todo.id := Number.add (Array_length todosData) (Int 1);
           Todo.text := text;
           Todo.completed := false |} in
      let todosData := Array_push todosData newTodo in
      (resolve newTodo, todosData)) 100).

(** A call of one of the three exported operations. *)
Inductive StoreCall : Type :=
| GetTodos
| DeleteTodo (id : number)
| AddTodo (text : string).

(** The value of [todosData] after a call has settled. *)
Definition perform (c : StoreCall) (todosData : Store) : Store :=
  match c with
  | GetTodos => snd (getTodos todosData)
  | DeleteTodo id => snd (deleteTodo id todosData)
  | AddTodo text => snd (addTodo text todosData)
  end.

Definition run_calls (calls : list StoreCall) (todosData : Store) : Store :=
  fold_left (fun s c => perform c s) calls todosData.

(** The store states that calls lead to from the seed state. *)
Inductive reachable : Store -> Prop :=
| reachable_init : reachable todosData_init
| reachable_step (c : StoreCall) (s : Store) :
    reachable s -> reachable (perform c s).

(** [add] is called with a text that is not the empty string. *)
Definition nonempty_text (c : StoreCall) : bool :=
  match c with
  | AddTodo text => negb (String.eqb text "")
  | _ => true
  end.

Definition ids (todosData : Store) : list number := map Todo.id todosData.

End TodoStore.
Export TodoStore.

(** ** The handler: [src/pages/api/todos/[id].ts] *)

Module Api.

(** [new Response(body, { status, statusText })]; [body] is [null] in
    both uses, and [statusText] defaults to the empty string. *)
Record Response : Type :=
  { body : option string; status : Z; statusText : string }.

(** [context.params]: a path parameter is a string or [undefined]. *)
Definition Params : Type := string -> option string.

(** [value || fallback] on [string | undefined]: [undefined] and the
    empty string are the falsy ones. *)
Definition or_else (value : option string) (fallback : string) : string :=
  match value with
  | Some EmptyString | None => fallback
  | Some s => s
  end.

(** The body of an [async] function that awaits store operations. *)
Inductive Async (R : Type) : Type :=
| Return (r : R)
| AwaitDeleteTodo (id : number) (k : bool -> Async R).
Arguments Return {R} r.
Arguments AwaitDeleteTodo {R} id k.

Definition DELETE (params : Params) : Async Response :=
  let id := parseInt (or_else (params "id") "") 10 in
  if isNaN id then
    Return {| body := None; status := 400; statusText := "Invalid ID" |}
  else
    AwaitDeleteTodo id (fun _ =>
      Return {| body := None; status := 200; statusText := "" |}).

(** Running an [async] body against the store: how its promise settles,
    the [todosData] it leaves, and the store operations it invoked, in
    order.  An awaited promise that rejects, or never settles, does the
    same to the function's own promise. *)
Fixpoint run {R : Type} (p : Async R) (todosData : Store)
    : PromiseState R * Store * list StoreCall :=
  match p with
  | Return r => (Fulfilled r, todosData, [])
  | AwaitDeleteTodo id k =>
      match deleteTodo id todosData with
      | (Fulfilled b, todosData') =>
          let '(result, todosData'', calls) := run (k b) todosData' in
          (result, todosData'', DeleteTodo id :: calls)
      | (Rejected reason, todosData') =>
          (Rejected reason, todosData', [DeleteTodo id])
      | (Pending, todosData') =>
          (Pending, todosData', [DeleteTodo id])
      end
  end.

(** The request [DELETE /api/todos/<segment>]. *)
Definition request (segment : string) : Params :=
  fun name => if String.eqb name "id" then Some segment else None.

(** A request without an [id] parameter. *)
Definition request_without_id : Params := fun _ => None.

Definition invalid_id : Response :=
  {| body := None; status := 400; statusText := "Invalid ID" |}.

Definition ok : Response :=
  {| body := None; status := 200; statusText := "" |}.

End Api.
Export Api.

(** ** Sequences of calls, by the operation called *)

Module CallKinds.

Definition is_getTodos (c : StoreCall) : bool :=
  match c with
  | GetTodos => true
  | _ => false
  end.

Definition is_deleteTodo (c : StoreCall) : bool :=
  match c with
  | DeleteTodo _ => true
  | _ => false
  end.

Definition is_addTodo (c : StoreCall) : bool :=
  match c with
  | AddTodo _ => true
  | _ => false
  end.

(** The ids [1, 2, ..., n], as the store numbers its first [n] records
    when nothing was deleted. *)
Definition ids_upto (n : nat) : list number :=
  map (fun i => Int (Z.of_nat i)) (seq 1 n).

End CallKinds.
Export CallKinds.

(** ** The JavaScript twin of the handler: [src/pages/api/todos/[id].js] *)

Module ApiJs.

(** [ToString] of a value that is a string or [undefined], as [parseInt]
    applies it to its first argument. *)
Definition ToString (value : option string) : string :=
  match value with
  | Some s => s
  | None => "undefined"
  end.

(** [DELETE] of [[id].js]: [params.id] goes to [parseInt] as it is. *)
Definition DELETE_js (params : Params) : Async Response :=
  let id := parseInt (ToString (params "id")) 10 in
  if isNaN id then
    Return {| body := None; status := 400; statusText := "Invalid ID" |}
  else
    AwaitDeleteTodo id (fun _ =>
      Return {| body := None; status := 200; statusText := "" |}).

End ApiJs.
Export ApiJs.

(** ** Decimal numerals *)

Module Numeral.

(** The decimal numeral of an integer: an optional minus sign and the
    digits without leading zeros, as [String(n)] writes an integer [n] of
    magnitude below [10^21], and as a path [/api/todos/<id>] carries an
    id. *)
Definition decimal (z : Z) : string :=
  DecimalString.NilZero.string_of_int (Z.to_int z).

(** The digits of a decimal numeral, most significant first. *)
Fixpoint digits_of (d : Decimal.uint) : list Z :=
  match d with
  | Decimal.Nil => []
  | Decimal.D0 d => 0 :: digits_of d
  | Decimal.D1 d => 1 :: digits_of d
  | Decimal.D2 d => 2 :: digits_of d
  | Decimal.D3 d => 3 :: digits_of d
  | Decimal.D4 d => 4 :: digits_of d
  | Decimal.D5 d => 5 :: digits_of d
  | Decimal.D6 d => 6 :: digits_of d
  | Decimal.D7 d => 7 :: digits_of d
  | Decimal.D8 d => 8 :: digits_of d
  | Decimal.D9 d => 9 :: digits_of d
  end.

End Numeral.
Export Numeral.

(** ** [encodeURIComponent] *)

Module URI.

(** The characters [encodeURIComponent] leaves as they are: letters,
    digits and [- _ . ! ~ * ' ( )]. *)
Definition isUnreserved (c : ascii) : bool :=
  let n := code c in
  ((48 <=? n) && (n <=? 57)) || ((65 <=? n) && (n <=? 90)) ||
  ((97 <=? n) && (n <=? 122)) ||
  existsb (Ascii.eqb c) ["-"; "_"; "."; "!"; "~"; "*"; "'"; "("; ")"]%char.

(** An upper-case hexadecimal digit. *)
Definition hexDigit (n : Z) : ascii :=
  ascii_of_nat (Z.to_nat (if n <? 10 then 48 + n else 55 + n)).

(** [%XX] for one octet. *)
Definition percentEncode (octet : Z) : string :=
  String "%" (String (hexDigit (octet / 16))
    (String (hexDigit (octet mod 16)) EmptyString)).

(** The UTF-8 octets of a code point below 2048 (the code units of the
    strings here are below 256). *)
Definition utf8 (cp : Z) : list Z :=
  if cp <? 128 then [cp] else [192 + cp / 64; 128 + cp mod 64].

Fixpoint encodeURIComponent (s : string) : string :=
  match s with
  | EmptyString => EmptyString
  | String c rest =>
      ((if isUnreserved c then String c EmptyString
        else String.concat EmptyString (map percentEncode (utf8 (code c))))
       ++ encodeURIComponent rest)%string
  end.

(** The characters a redirect target built here is made of: the
    unreserved ones, [%], and the [/ ? =] of the literal paths. *)
Definition isTargetChar (c : ascii) : bool :=
  isUnreserved c || existsb (Ascii.eqb c) ["%"; "/"; "?"; "="]%char.

End URI.
Export URI.

(** ** Sign-in: [src/pages/api/auth/signin.ts]

    The file holds two [POST] handlers.  Both read the form, call the
    authentication provider and set two cookies on success; they differ in
    how a failure is reported: the first by a redirect header and an error
    status, the second by a rendered alert.  The form, the provider, the
    cookie jar and the renderer are outside the file: a handler is a tree
    of calls to them, and [run] plays it against a [World] giving their
    answers. *)

Module Signin.

(** [FormDataEntryValue]: a string or a file. *)
Inductive FormDataEntryValue : Type :=
| Text (value : string)
| File.

(** [entry.toString()]. *)
Definition toString (entry : FormDataEntryValue) : string :=
  match entry with
  | Text value => value
  | File => "[object File]"
  end.

(** [formData.get(name)], [null] for a missing field. *)
Definition FormData : Type := string -> option FormDataEntryValue.

Record Session : Type := { access_token : string; refresh_token : string }.

Record AuthData : Type := { session : option Session }.

Record AuthError : Type := { message : string }.

(** What [signInWithPassword] resolves to. *)
Record AuthResponse : Type :=
  { data : option AuthData; error : option AuthError }.

Record Response : Type :=
  { body : option string;
    status : Z;
    headers : list (string * string) }.

(** The calls a handler makes outside the file. *)
Inductive Call : Type :=
| RequestFormData
| SignInWithPassword (email password : string)
| CookiesSet (name value path : string)
| ContainerCreate
| RenderAlert (type message : string).

(** The body of an [async] handler. *)
Inductive Handler (R : Type) : Type :=
| Return (r : R)
| Throw (exception : string)
| AwaitFormData (k : FormData -> Handler R)
| AwaitSignIn (email password : string) (k : AuthResponse -> Handler R)
| SetCookie (name value path : string) (k : Handler R)
| AwaitContainerCreate (k : Handler R)
| AwaitRenderAlert (type message : string) (k : string -> Handler R).
Arguments Return {R} r.
Arguments Throw {R} exception.
Arguments AwaitFormData {R} k.
Arguments AwaitSignIn {R} email password k.
Arguments SetCookie {R} name value path k.
Arguments AwaitContainerCreate {R} k.
Arguments AwaitRenderAlert {R} type message k.

(** How the awaited promises of the outside settle. *)
Record World : Type :=
  { request_formData : PromiseState FormData;
    signInWithPassword : string -> string -> PromiseState AuthResponse;
    container_create : PromiseState unit;
    renderToString : string -> string -> PromiseState string }.

(** [await p] on a promise of the outside: the value when it is
    fulfilled; otherwise the handler's own promise is rejected, or stays
    pending, with it. *)
Definition await {A R : Type} (p : PromiseState A)
    (k : A -> PromiseState R * list Call) : PromiseState R * list Call :=
  match p with
  | Fulfilled value => k value
  | Rejected reason => (Rejected reason, [])
  | Pending => (Pending, [])
  end.

Definition logged {R : Type} (c : Call) (r : PromiseState R * list Call)
    : PromiseState R * list Call :=
  (fst r, c :: snd r).

(** Running a handler: how its promise settles, and the calls it made. *)
Fixpoint run {R : Type} (h : Handler R) (w : World)
    : PromiseState R * list Call :=
  match h with
  | Return r => (Fulfilled r, [])
  | Throw exception => (Rejected exception, [])
  | AwaitFormData k =>
      logged RequestFormData
        (await (request_formData w) (fun formData => run (k formData) w))
  | AwaitSignIn email password k =>
      logged (SignInWithPassword email password)
        (await (signInWithPassword w email password) (fun r => run (k r) w))
  | SetCookie name value path k =>
      logged (CookiesSet name value path) (run k w)
  | AwaitContainerCreate k =>
      logged ContainerCreate (await (container_create w) (fun _ => run k w))
  | AwaitRenderAlert type message k =>
      logged (RenderAlert type message)
        (await (renderToString w type message) (fun html => run (k html) w))
  end.

(** [!value] on [string | undefined]: true of [undefined] and of the empty
    string. *)
Definition falsy (value : option string) : bool :=
  match value with
  | Some EmptyString | None => true
  | Some _ => false
  end.

(** A [string | undefined] that the guard has narrowed to [string]. *)
Definition narrowed (value : option string) : string :=
  match value with
  | Some s => s
  | None => EmptyString
  end.

(** Lines 33 to 40 and 77 to 84, the same in both handlers: the tokens of
    the session go to two cookies, and the answer redirects to the
    dashboard. *)
Definition signed_in (s : Session) : Handler Response :=
  SetCookie "sb-access-token" (access_token s) "/"
    (SetCookie "sb-refresh-token" (refresh_token s) "/"
      (Return {| body := None; status := 200;
                 headers := [("HX-Redirect", "/dashboard")] |})).

(** The first handler (lines 5 to 41). *)
Definition POST_redirect : Handler Response :=
  AwaitFormData (fun formData =>
    let email := option_map toString (formData "email") in
    let password := option_map toString (formData "password") in
    if falsy email || falsy password then
      Return {| body := None; status := 400;
                headers :=
                  [("HX-Redirect",
                    ("/api/error?message=" ++
                     encodeURIComponent "Email and password are required")%string)] |}
    else
      AwaitSignIn (narrowed email) (narrowed password) (fun r =>
        match error r with
        | Some e =>
            Return {| body := None; status := 401;
                      headers :=
                        [("HX-Redirect",
                          ("/api/error?message=" ++
                           encodeURIComponent (message e))%string)] |}
        | None =>
            match data r with
            | Some d =>
                match session d with
                | Some s => signed_in s
                | None => Throw "TypeError"
                end
            | None => Throw "TypeError"
            end
        end)).

(** The alert both failure branches of the second handler render. *)
Definition alert (message : string) : Handler Response :=
  AwaitContainerCreate
    (AwaitRenderAlert "error" message (fun errorHtml =>
      Return {| body := Some errorHtml; status := 200;
                headers := [("Content-Type", "text/html")] |})).

(** [data?.session]. *)
Definition data_session (r : AuthResponse) : option Session :=
  match data r with
  | Some d => session d
  | None => None
  end.

(** The second handler (lines 48 to 85). *)
Definition POST_alert : Handler Response :=
  AwaitFormData (fun formData =>
    let email := option_map toString (formData "email") in
    let password := option_map toString (formData "password") in
    if falsy email || falsy password then
      alert "Email and password are required"
    else
      AwaitSignIn (narrowed email) (narrowed password) (fun r =>
        match error r, data_session r with
        | None, Some s => signed_in s
        | Some e, _ => alert (message e)
        | None, None => alert "Login failed"
        end)).

Definition is_CookiesSet (c : Call) : bool :=
  match c with
  | CookiesSet _ _ _ => true
  | _ => false
  end.

(** The calls that reach the authentication provider or the cookie jar. *)
Definition is_auth_call (c : Call) : bool :=
  match c with
  | SignInWithPassword _ _ | CookiesSet _ _ _ => true
  | _ => false
  end.


(** A form with the two fields given. *)
Definition form (email password : option FormDataEntryValue) : FormData :=
  fun name =>
    if String.eqb name "email" then email
    else if String.eqb name "password" then password
    else None.

(** A world in which every promise of the outside is fulfilled: the form
    is [fd], the provider answers [r] to every sign-in, and the renderer
    wraps the message in a [div]. *)
Definition fulfilled_world (fd : FormData) (r : AuthResponse) : World :=
  {| request_formData := Fulfilled fd;
     signInWithPassword := fun _ _ => Fulfilled r;
     container_create := Fulfilled tt;
     renderToString := fun _ message =>
       Fulfilled ("<div>" ++ message ++ "</div>")%string |}.

End Signin.

(** * Properties *)

(** ** [parseInt] on examples *)

Example parseInt_2 : parseInt "2" 10 = Int 2.
Proof. reflexivity. Qed.

Example parseInt_neg : parseInt "  -17px" 10 = Int (-17).
Proof. reflexivity. Qed.

Example parseInt_hex : parseInt "0x1F" 16 = Int 31.
Proof. reflexivity. Qed.

Example parseInt_0x_radix10 : parseInt "0x1F" 10 = Int 0.
Proof. reflexivity. Qed.

Example parseInt_empty : parseInt "" 10 = NaN.
Proof. reflexivity. Qed.

Example ofInteger_2_53_plus_1 : ofInteger (2 ^ 53 + 1) = Int (2 ^ 53).
Proof. vm_compute. reflexivity. Qed.

Example ofInteger_2_53_plus_3 : ofInteger (2 ^ 53 + 3) = Int (2 ^ 53 + 4).
Proof. vm_compute. reflexivity. Qed.

Example ofInteger_huge : ofInteger (10 ^ 400) = Infinity false.
Proof. vm_compute. reflexivity. Qed.

Example ofInteger_max : ofInteger (2 ^ 1024 - 2 ^ 970 - 1) = Int ((2 ^ 53 - 1) * 2 ^ 971).
Proof. vm_compute. reflexivity. Qed.

(** ** Numbers *)

Lemma ofInteger_not_NaN (z : Z) : ofInteger z <> NaN.
Proof.
  unfold ofInteger.
  destruct (Z.abs z <? 2 ^ 53); [discriminate|].
  match goal with |- context [if ?b then Infinity _ else _] => destruct b end;
    discriminate.
Qed.

Lemma ofInteger_exact (z : Z) : Z.abs z < 2 ^ 53 -> ofInteger z = Int z.
Proof.
  intros H. unfold ofInteger.
  destruct (Z.ltb_spec (Z.abs z) (2 ^ 53)); [reflexivity | lia].
Qed.

Lemma strict_eq_true_iff (a b : number) :
  strict_eq a b = true <-> a = b /\ a <> NaN.
Proof.
  destruct a as [x|s|], b as [y|t|]; simpl; split;
    try discriminate; try (intros [E _]; discriminate E);
    try (intros [_ N]; now elim N).
  - intros E. apply Z.eqb_eq in E. subst. split; [reflexivity|discriminate].
  - intros [E _]. injection E as ->. apply Z.eqb_refl.
  - intros E. apply Bool.eqb_prop in E. subst. split; [reflexivity|discriminate].
  - intros [E _]. injection E as ->. apply Bool.eqb_reflx.
Qed.

Lemma strict_neq_Int (x y : Z) : strict_neq (Int x) (Int y) = negb (x =? y).
Proof. reflexivity. Qed.

(** ** [parseInt] in radix 10 *)

(** In radix 10 nothing is stripped but white space and one sign, and the
    result is NaN exactly when no decimal digit follows. *)
Lemma parseInt_10_unfold (s : string) :
  parseInt s 10 =
    match digitPrefix 10 (snd (stripSign (trimStart s))) with
    | [] => NaN
    | digits => ofInteger (fst (stripSign (trimStart s)) * mathInt 10 digits)
    end.
Proof.
  unfold parseInt. destruct (stripSign (trimStart s)) as [sign rest].
  reflexivity.
Qed.

Lemma parseInt_10_NaN_iff (s : string) :
  parseInt s 10 = NaN <-> digitPrefix 10 (snd (stripSign (trimStart s))) = [].
Proof.
  rewrite parseInt_10_unfold.
  destruct (digitPrefix 10 (snd (stripSign (trimStart s)))) as [|d ds].
  - split; reflexivity.
  - split; [|discriminate].
    intros H. now apply ofInteger_not_NaN in H.
Qed.

(** A string that starts with a decimal digit never parses to NaN,
    whatever follows the digits. *)
Lemma parseInt_10_leading_digit (c : ascii) (rest : string) :
  radixDigit 10 c <> None ->
  isNaN (parseInt (String c rest) 10) = false.
Proof.
  intros Hd.
  destruct (parseInt (String c rest) 10) eqn:N; try reflexivity.
  apply parseInt_10_NaN_iff in N. exfalso.
  destruct c as [[] [] [] [] [] [] [] []];
    try (apply Hd; reflexivity); discriminate N.
Qed.

(** ** The store operations *)

Lemma getTodos_eq (s : Store) : getTodos s = (Fulfilled s, s).
Proof. reflexivity. Qed.

Lemma deleteTodo_eq (id : number) (s : Store) :
  deleteTodo id s =
    (Fulfilled true, filter (fun todo => strict_neq (Todo.id todo) id) s).
Proof. reflexivity. Qed.

Lemma addTodo_eq (text : string) (s : Store) :
  addTodo text s =
    (Fulfilled {| Todo.id := Int (Z.of_nat (List.length s) + 1);
                  Todo.text := text; Todo.completed := false |},
     (s ++ [ {| Todo.id := Int (Z.of_nat (List.length s) + 1);
                Todo.text := text; Todo.completed := false |} ])%list).
Proof. reflexivity. Qed.

Lemma filter_idempotent {A : Type} (f : A -> bool) (l : list A) :
  filter f (filter f l) = filter f l.
Proof.
  induction l as [|a l IH]; simpl; [reflexivity|].
  destruct (f a) eqn:E; simpl; [rewrite E, IH|]; auto.
Qed.

Lemma run_calls_app (cs ds : list StoreCall) (s : Store) :
  run_calls (cs ++ ds) s = run_calls ds (run_calls cs s).
Proof. unfold run_calls. apply fold_left_app. Qed.

(** The inductive and the trace view of reachability agree. *)
Lemma reachable_iff_run_calls (s : Store) :
  reachable s <-> exists calls, s = run_calls calls todosData_init.
Proof.
  split.
  - induction 1 as [|c s _ [calls ->]].
    + now exists [].
    + exists (calls ++ [c])%list. now rewrite run_calls_app.
  - intros [calls ->].
    induction calls as [|c calls IH] using rev_ind.
    + constructor.
    + rewrite run_calls_app. simpl. now constructor.
Qed.

(** Every id of a reachable store is a positive integer: the seeds are 1,
    2 and 3, and [addTodo] gives a length plus one. *)
Lemma reachable_ids_positive (s : Store) :
  reachable s -> Forall positive_integer (ids s).
Proof.
  unfold ids.
  induction 1 as [|c s _ IH].
  - repeat constructor; eexists; (split; [reflexivity|lia]).
  - destruct c as [|id|text]; simpl.
    + exact IH.
    + rewrite Forall_forall in *. intros n Hn.
      apply in_map_iff in Hn as [t [<- Ht]].
      apply filter_In in Ht as [Ht _].
      apply IH, in_map, Ht.
    + unfold Array_push. rewrite map_app. apply Forall_app. split; [exact IH|].
      repeat constructor. simpl. eexists. split; [reflexivity|lia].
Qed.

(** ** The store: what each operation does *)

(** C5. For every store state, [getTodos] is fulfilled with the whole
    current sequence of records, in the order the store holds them, and
    leaves the store as it was; that order is the order of insertion, two
    records added one after the other being listed last, in that order; on
    the seed state the result is exactly the three literal seed records in
    their original order. *)
Theorem getTodos_returns_all_in_order :
  (forall s : Store, getTodos s = (Fulfilled s, s)) /\
  (forall (s : Store) (a b : string),
     exists ta tb,
       fst (getTodos (run_calls [AddTodo a; AddTodo b] s)) =
         Fulfilled (s ++ [ta; tb])%list /\
       Todo.text ta = a /\ Todo.text tb = b) /\
  getTodos todosData_init =
    (Fulfilled
       [ {| Todo.id := Int 1; Todo.text := "Learn Kung Fu"; Todo.completed := false |};
         {| Todo.id := Int 2; Todo.text := "Watch Westminster"; Todo.completed := true |};
         {| Todo.id := Int 3; Todo.text := "Study Vedanta"; Todo.completed := false |} ],
     todosData_init).
Proof.
  split; [intros s; apply getTodos_eq | split; [|reflexivity]].
  intros s a b. do 2 eexists. simpl. unfold Array_push.
  rewrite <- app_assoc. simpl. repeat split.
Qed.

(** C2. For every store state and every text, [addTodo] builds a record
    with [completed = false] and id the current length plus one, appends it
    at the end of the collection and is fulfilled with exactly that record;
    the empty string is accepted and stored like any other text. *)
Theorem addTodo_appends_new_record :
  (forall (s : Store) (text : string),
     let newTodo :=
       {| Todo.id := Int (Z.of_nat (List.length s) + 1);
          Todo.text := text; Todo.completed := false |} in
     addTodo text s = (Fulfilled newTodo, (s ++ [newTodo])%list)) /\
  (forall s : Store,
     exists t, addTodo "" s = (Fulfilled t, (s ++ [t])%list) /\ Todo.text t = "").
Proof.
  split.
  - intros s text. apply addTodo_eq.
  - intros s. eexists. split; [apply addTodo_eq | reflexivity].
Qed.

(** C3. For every store state and every number id, [deleteTodo] leaves
    the previous collection filtered to the records whose id differs from
    [id]: a record stays exactly when it was there and its id is not
    strictly equal to [id], so none with that id remains; the promise is
    fulfilled with [true] whether or not anything was removed. *)
Theorem deleteTodo_filters_and_returns_true :
  forall (s : Store) (id : number),
    deleteTodo id s =
      (Fulfilled true, filter (fun todo => strict_neq (Todo.id todo) id) s) /\
    (forall t, In t (snd (deleteTodo id s)) <->
               In t s /\ strict_eq (Todo.id t) id = false) /\
    Forall (fun t => strict_eq (Todo.id t) id = false) (snd (deleteTodo id s)).
Proof.
  intros s id. rewrite !deleteTodo_eq. simpl.
  assert (I : forall t,
    In t (filter (fun todo => strict_neq (Todo.id todo) id) s) <->
    In t s /\ strict_eq (Todo.id t) id = false).
  { intros t. rewrite filter_In. unfold strict_neq.
    now rewrite Bool.negb_true_iff. }
  split; [reflexivity|]. split; [exact I|].
  apply Forall_forall. intros t Ht. now apply I in Ht.
Qed.

(** With an integer id, strict equality is equality: no record of that id
    is left. *)
Lemma deleteTodo_Int_removes (s : Store) (z : Z) (t : Todo) :
  In t (snd (deleteTodo (Int z) s)) -> Todo.id t <> Int z.
Proof.
  rewrite deleteTodo_eq. simpl. intros Ht E.
  apply filter_In in Ht as [_ Ht]. rewrite E, strict_neq_Int in Ht.
  now rewrite Z.eqb_refl in Ht.
Qed.

(** C9. Deleting the same id twice in succession leaves the store exactly
    as deleting it once does, and both calls are fulfilled with [true]. *)
Theorem deleteTodo_idempotent :
  forall (s : Store) (id : number),
    snd (deleteTodo id (snd (deleteTodo id s))) = snd (deleteTodo id s) /\
    fst (deleteTodo id s) = Fulfilled true /\
    fst (deleteTodo id (snd (deleteTodo id s))) = Fulfilled true.
Proof.
  intros s id. rewrite !deleteTodo_eq. simpl.
  split; [apply filter_idempotent | split; reflexivity].
Qed.

(** C8. None of the three operations can fail: from every store state and
    for every argument, the promise of each is fulfilled with a value; it is
    neither rejected nor left pending. *)
Theorem store_operations_always_fulfilled :
  forall s : Store,
    (exists v, fst (getTodos s) = Fulfilled v) /\
    (forall text : string, exists v, fst (addTodo text s) = Fulfilled v) /\
    (forall id : number, exists v, fst (deleteTodo id s) = Fulfilled v).
Proof.
  intros s. split; [|split].
  - rewrite getTodos_eq. now eexists.
  - intros text. rewrite addTodo_eq. now eexists.
  - intros id. rewrite deleteTodo_eq. now eexists.
Qed.

(** ** Ids and texts of the reachable stores *)

(** C1. Id collisions are reachable: from the seed state, deleting the
    record of id 1 and then adding a text gives a store with two different
    positions that hold records of the same id, the new record's id being
    the length after the deletion plus one. *)
Theorem id_collision_reachable :
  exists (id : number) (text : string) (i j : nat) (a b : Todo),
    let s := run_calls [DeleteTodo id; AddTodo text] todosData_init in
    reachable s /\
    i <> j /\ nth_error s i = Some a /\ nth_error s j = Some b /\
    Todo.id a = Todo.id b /\
    Todo.id b =
      Int (Z.of_nat (List.length (perform (DeleteTodo id) todosData_init)) + 1).
Proof.
  exists (Int 1), "Buy milk", 1%nat, 2%nat.
  eexists. eexists. simpl.
  split; [|split; [discriminate|repeat split]].
  apply reachable_iff_run_calls.
  now exists [DeleteTodo (Int 1); AddTodo "Buy milk"].
Qed.

(** C6. The ids of a reachable store are not always pairwise distinct:
    after deleting id 1 from the seed state and adding a text, the ids are
    2, 3 and 3, so the property that every id is a positive integer and the
    ids are pairwise distinct fails on a reachable store. *)
Theorem ids_not_unique_after_delete_add :
  let s := run_calls [DeleteTodo (Int 1); AddTodo "Buy milk"] todosData_init in
  reachable s /\
  ids s = [Int 2; Int 3; Int 3] /\
  ~ NoDup (ids s) /\
  ~ (forall s' : Store,
       reachable s' -> Forall positive_integer (ids s') /\ NoDup (ids s')).
Proof.
  assert (R : reachable
    (run_calls [DeleteTodo (Int 1); AddTodo "Buy milk"] todosData_init)).
  { apply reachable_iff_run_calls. now eexists. }
  assert (N : ~ NoDup [Int 2; Int 3; Int 3]).
  { intros H. apply NoDup_cons_iff in H as [_ H].
    apply NoDup_cons_iff in H as [H _]. apply H. now left. }
  simpl. split; [exact R|]. split; [reflexivity|]. split; [exact N|].
  intros H. apply H in R. destruct R as [_ R]. exact (N R).
Qed.

(** C7, as the claim has it, fails: adding the empty string to the seed
    state gives a reachable store with a record whose text is empty. *)
Lemma empty_text_reachable :
  ~ (forall s : Store,
       reachable s -> Forall (fun t => Todo.text t <> "") s).
Proof.
  intros H.
  assert (R : reachable (perform (AddTodo "") todosData_init))
    by (constructor; constructor).
  apply H in R. rewrite Forall_forall in R.
  apply (R {| Todo.id := Int 4; Todo.text := ""; Todo.completed := false |});
    [|reflexivity].
  simpl. auto.
Qed.

Lemma run_calls_texts_nonempty (calls : list StoreCall) :
  forall s : Store,
    Forall (fun t => Todo.text t <> "") s ->
    forallb nonempty_text calls = true ->
    Forall (fun t => Todo.text t <> "") (run_calls calls s).
Proof.
  induction calls as [|c calls IH]; intros s Hs Hc; simpl in *; [exact Hs|].
  apply Bool.andb_true_iff in Hc as [Hc Hcs].
  apply IH; [|exact Hcs].
  destruct c as [|id|text]; simpl.
  - exact Hs.
  - rewrite Forall_forall in *. intros t Ht.
    apply filter_In in Ht as [Ht _]. now apply Hs.
  - apply Forall_app. split; [exact Hs|].
    constructor; [|constructor]. simpl in *.
    apply Bool.negb_true_iff in Hc. now apply String.eqb_neq in Hc.
Qed.

(** C7, amended. In every store reached from the seed state by calls of
    list, add and delete in which every add is given a non-empty text, the
    text of every record is a non-empty string. *)
Theorem texts_nonempty_when_adds_nonempty :
  forall calls : list StoreCall,
    forallb nonempty_text calls = true ->
    Forall (fun t => Todo.text t <> "") (run_calls calls todosData_init).
Proof.
  intros calls H. apply run_calls_texts_nonempty; [|exact H].
  repeat constructor; discriminate.
Qed.

Lemma texts_nonempty_when_adds_nonempty_witness :
  forallb nonempty_text [AddTodo "Buy milk"; DeleteTodo (Int 2); GetTodos] = true /\
  Forall (fun t => Todo.text t <> "")
    (run_calls [AddTodo "Buy milk"; DeleteTodo (Int 2); GetTodos] todosData_init).
Proof.
  split; [reflexivity|].
  apply (texts_nonempty_when_adds_nonempty
           [AddTodo "Buy milk"; DeleteTodo (Int 2); GetTodos]).
  reflexivity.
Defined.

(** ** The DELETE handler *)

Lemma run_DELETE (params : Params) (s : Store) :
  run (DELETE params) s =
    match parseInt (or_else (params "id") "") 10 with
    | NaN => (Fulfilled invalid_id, s, [])
    | id =>
        (Fulfilled ok,
         filter (fun todo => strict_neq (Todo.id todo) id) s,
         [DeleteTodo id])
    end.
Proof.
  unfold DELETE.
  destruct (parseInt (or_else (params "id") "") 10); reflexivity.
Qed.

(** C4. For every request and store state: when [parseInt] of the [id]
    path parameter (the empty string when the parameter is absent) is NaN,
    the handler answers 400 with status text [Invalid ID] and no body,
    invokes no store operation and leaves the store as it was; otherwise it
    invokes [deleteTodo] once, with the parsed number, and answers 200 with
    no body.  [parseInt] gives NaN exactly when no decimal digit follows
    the leading white space and sign.  An absent parameter and [abc] give
    400; a parameter [2] gives 200 on the seed store, where id 2 is held,
    and just as well on the empty store, where it is not. *)
Theorem DELETE_400_on_NaN_200_otherwise :
  (forall (params : Params) (s : Store),
     run (DELETE params) s =
       match parseInt (or_else (params "id") "") 10 with
       | NaN =>
           (Fulfilled {| body := None; status := 400; statusText := "Invalid ID" |},
            s, [])
       | id =>
           (Fulfilled {| body := None; status := 200; statusText := "" |},
            snd (deleteTodo id s), [DeleteTodo id])
       end) /\
  (forall segment : string,
     parseInt segment 10 = NaN <->
     digitPrefix 10 (snd (stripSign (trimStart segment))) = []) /\
  (forall s : Store,
     run (DELETE request_without_id) s = (Fulfilled invalid_id, s, [])) /\
  (forall s : Store,
     run (DELETE (request "abc")) s = (Fulfilled invalid_id, s, [])) /\
  run (DELETE (request "2")) todosData_init =
    (Fulfilled ok,
     [ {| Todo.id := Int 1; Todo.text := "Learn Kung Fu"; Todo.completed := false |};
       {| Todo.id := Int 3; Todo.text := "Study Vedanta"; Todo.completed := false |} ],
     [DeleteTodo (Int 2)]) /\
  run (DELETE (request "2")) [] = (Fulfilled ok, [], [DeleteTodo (Int 2)]).
Proof.
  split; [|split; [|repeat split]].
  - intros params s. rewrite run_DELETE.
    destruct (parseInt (or_else (params "id") "") 10); reflexivity.
  - exact parseInt_10_NaN_iff.
Qed.

(** C10. Some path parameters that are not integer literals are not
    answered with 400: [parseInt] reads the leading digits of [2abc] and of
    [2.9] as 2, so on every store the handler invokes [deleteTodo] with 2
    and answers 200. *)
Theorem DELETE_accepts_integer_prefix :
  parseInt "2abc" 10 = Int 2 /\
  parseInt "2.9" 10 = Int 2 /\
  (forall s : Store,
     run (DELETE (request "2abc")) s =
       (Fulfilled {| body := None; status := 200; statusText := "" |},
        snd (deleteTodo (Int 2) s), [DeleteTodo (Int 2)])) /\
  (forall s : Store,
     run (DELETE (request "2.9")) s =
       (Fulfilled {| body := None; status := 200; statusText := "" |},
        snd (deleteTodo (Int 2) s), [DeleteTodo (Int 2)])).
Proof. repeat split. Qed.

(** More generally, a parameter that starts with a decimal digit is
    answered with 200, whatever follows the digit. *)
Lemma DELETE_leading_digit (c : ascii) (rest : string) (s : Store) :
  radixDigit 10 c <> None ->
  exists id, run (DELETE (request (String c rest))) s =
               (Fulfilled ok, snd (deleteTodo id s), [DeleteTodo id]).
Proof.
  intros Hd. apply (parseInt_10_leading_digit c rest) in Hd.
  rewrite run_DELETE.
  assert (E : or_else (request (String c rest) "id") "" = String c rest)
    by reflexivity.
  rewrite E.
  destruct (parseInt (String c rest) 10) as [z|b|]; [| |discriminate Hd];
    eexists; reflexivity.
Qed.

(** * Further properties of the store *)

Lemma filter_eq_iff_forallb {A : Type} (f : A -> bool) (l : list A) :
  filter f l = l <-> forallb f l = true.
Proof.
  split.
  - intros E. apply filter_length_forallb. now rewrite E.
  - apply forallb_filter_id.
Qed.

Lemma filter_comm {A : Type} (f g : A -> bool) (l : list A) :
  filter f (filter g l) = filter g (filter f l).
Proof.
  induction l as [|a l IH]; simpl; [reflexivity|].
  destruct (f a) eqn:F, (g a) eqn:G; simpl; rewrite ?F, ?G, IH; reflexivity.
Qed.

Lemma filter_split_length {A : Type} (f : A -> bool) (l : list A) :
  (List.length (filter f l) + List.length (filter (fun x => negb (f x)) l))%nat
  = List.length l.
Proof.
  induction l as [|a l IH]; simpl; [reflexivity|].
  destruct (f a); simpl; lia.
Qed.

Lemma deleteTodo_unchanged_iff (s : Store) (id : number) :
  filter (fun todo => strict_neq (Todo.id todo) id) s = s <->
  Forall (fun todo => strict_eq (Todo.id todo) id = false) s.
Proof.
  rewrite filter_eq_iff_forallb, forallb_forall, Forall_forall.
  unfold strict_neq.
  split; intros H t Ht; apply H in Ht;
    [now apply Bool.negb_true_iff in Ht | now apply Bool.negb_true_iff].
Qed.

(** X1. [deleteTodo] removes exactly the records whose id is strictly equal to
    the argument: the length drops by their number, and the store is left
    as it was exactly when there is no such record. *)
Theorem deleteTodo_removes_exactly_the_matches :
  forall (s : Store) (id : number),
    (List.length (snd (deleteTodo id s)) +
     List.length (filter (fun todo => strict_eq (Todo.id todo) id) s))%nat
    = List.length s /\
    (snd (deleteTodo id s) = s <->
     Forall (fun todo => strict_eq (Todo.id todo) id = false) s).
Proof.
  intros s id. rewrite deleteTodo_eq. cbn [snd]. split.
  - rewrite <- (filter_split_length (fun todo => strict_neq (Todo.id todo) id) s).
    f_equal. f_equal. apply filter_ext. intros t. unfold strict_neq.
    now rewrite Bool.negb_involutive.
  - apply deleteTodo_unchanged_iff.
Qed.

(** X2. [deleteTodo(NaN)] removes nothing from any store, not even a record
    whose id is NaN: [todo.id !== NaN] holds of every record. *)
Theorem deleteTodo_NaN_removes_nothing :
  forall s : Store, deleteTodo NaN s = (Fulfilled true, s).
Proof.
  intros s. rewrite deleteTodo_eq.
  rewrite forallb_filter_id; [reflexivity|].
  apply forallb_forall. intros t _.
  unfold strict_neq. now destruct (Todo.id t).
Qed.

(** X3. Two deletions commute: the store they leave does not depend on the
    order of the two calls. *)
Theorem deleteTodo_commutes :
  forall (s : Store) (id1 id2 : number),
    run_calls [DeleteTodo id1; DeleteTodo id2] s =
    run_calls [DeleteTodo id2; DeleteTodo id1] s.
Proof. intros s id1 id2. simpl. apply filter_comm. Qed.

(** X4. Deleting the id [addTodo] has just returned leaves the store that
    deleting that id before the call would have left: the new record goes,
    and with it every older record of the same id. *)
Theorem delete_after_add_is_delete_before :
  forall (s : Store) (text : string),
    exists newTodo,
      fst (addTodo text s) = Fulfilled newTodo /\
      snd (deleteTodo (Todo.id newTodo) (snd (addTodo text s))) =
      snd (deleteTodo (Todo.id newTodo) s).
Proof.
  intros s text. rewrite addTodo_eq. eexists. split; [reflexivity|].
  rewrite !deleteTodo_eq. simpl. rewrite filter_app. simpl.
  rewrite strict_neq_Int, Z.eqb_refl. simpl. apply app_nil_r.
Qed.

(** X5. Round trip: when no record of the store has the id [length + 1],
    adding a text and deleting the id returned gives back the store. *)
Theorem add_then_delete_restores :
  forall (s : Store) (text : string),
    Forall (fun todo =>
      strict_eq (Todo.id todo) (Int (Z.of_nat (List.length s) + 1)) = false) s ->
    run_calls
      [AddTodo text; DeleteTodo (Int (Z.of_nat (List.length s) + 1))] s = s.
Proof.
  intros s text H. simpl. unfold Array_push. rewrite filter_app. simpl.
  rewrite strict_neq_Int, Z.eqb_refl. simpl. rewrite app_nil_r.
  now apply deleteTodo_unchanged_iff.
Qed.

Lemma add_then_delete_restores_witness :
  run_calls
    [AddTodo "Buy milk";
     DeleteTodo (Int (Z.of_nat (List.length todosData_init) + 1))]
    todosData_init = todosData_init.
Proof.
  apply (add_then_delete_restores todosData_init "Buy milk").
  repeat constructor.
Defined.

(** ** Invariants along sequences of calls *)

Lemma run_calls_cons (c : StoreCall) (calls : list StoreCall) (s : Store) :
  run_calls (c :: calls) s = run_calls calls (perform c s).
Proof. reflexivity. Qed.

(** A property of records that every record built by [addTodo] has is kept
    by every sequence of calls. *)
Lemma run_calls_Forall (P : Todo -> Prop) :
  (forall n text,
     P {| Todo.id := n; Todo.text := text; Todo.completed := false |}) ->
  forall (calls : list StoreCall) (s : Store),
    Forall P s -> Forall P (run_calls calls s).
Proof.
  intros Hadd calls.
  induction calls as [|c calls IH]; intros s Hs; [exact Hs|].
  rewrite run_calls_cons. apply IH.
  destruct c as [|id|text]; simpl.
  - exact Hs.
  - rewrite Forall_forall in *. intros t Ht.
    apply filter_In in Ht as [Ht _]. now apply Hs.
  - apply Forall_app. split; [exact Hs|]. constructor; [apply Hadd|constructor].
Qed.

Lemma NoDup_map_injective {A B : Type} (f : A -> B) (l : list A) :
  (forall x y, f x = f y -> x = y) -> NoDup l -> NoDup (map f l).
Proof.
  intros Hf. induction 1 as [|a l Ha _ IH]; simpl; constructor; [|exact IH].
  intros Hin. apply in_map_iff in Hin as [x [E Hx]].
  apply Hf in E. now subst.
Qed.

Lemma ids_upto_S (n : nat) :
  ids_upto (S n) = (ids_upto n ++ [Int (Z.of_nat n + 1)])%list.
Proof.
  unfold ids_upto. rewrite seq_S, map_app. simpl. do 3 f_equal. lia.
Qed.

Lemma ids_upto_NoDup (n : nat) : NoDup (ids_upto n).
Proof.
  apply NoDup_map_injective; [|apply seq_NoDup].
  intros x y E. injection E as E. lia.
Qed.

Lemma run_calls_no_delete (calls : list StoreCall) :
  forall s : Store,
    forallb (fun c => negb (is_deleteTodo c)) calls = true ->
    ids s = ids_upto (List.length s) ->
    ids (run_calls calls s) = ids_upto (List.length (run_calls calls s)) /\
    List.length (run_calls calls s) =
      (List.length s + List.length (filter is_addTodo calls))%nat.
Proof.
  induction calls as [|c calls IH]; intros s Hc Hs.
  - simpl. split; [exact Hs|lia].
  - simpl in Hc. apply Bool.andb_true_iff in Hc as [Hc Hcs].
    rewrite run_calls_cons.
    destruct c as [|id|text]; [| discriminate Hc |].
    + apply (IH s Hcs Hs).
    + destruct (IH (perform (AddTodo text) s) Hcs) as [I L].
      * simpl. unfold Array_push, ids.
        rewrite map_app, length_app. simpl.
        rewrite Nat.add_1_r, ids_upto_S. now f_equal.
      * split; [exact I|]. rewrite L. simpl. unfold Array_push.
        rewrite length_app. simpl. lia.
Qed.

(** X6. As long as nothing is deleted, the ids are the positions: in a store
    reached from the seed state by calls of list and add only, the ids are
    1, 2, ..., n in this order, hence pairwise distinct, and n is three
    plus the number of adds. *)
Theorem ids_sequential_without_delete :
  forall calls : list StoreCall,
    forallb (fun c => negb (is_deleteTodo c)) calls = true ->
    ids (run_calls calls todosData_init) =
      ids_upto (List.length (run_calls calls todosData_init)) /\
    NoDup (ids (run_calls calls todosData_init)) /\
    List.length (run_calls calls todosData_init) =
      (3 + List.length (filter is_addTodo calls))%nat.
Proof.
  intros calls H.
  destruct (run_calls_no_delete calls todosData_init H eq_refl) as [I L].
  split; [exact I|]. split; [|exact L].
  rewrite I. apply ids_upto_NoDup.
Qed.

Lemma ids_sequential_without_delete_witness :
  forallb (fun c => negb (is_deleteTodo c))
    [AddTodo "Buy milk"; GetTodos; AddTodo ""] = true /\
  ids (run_calls [AddTodo "Buy milk"; GetTodos; AddTodo ""] todosData_init) =
    [Int 1; Int 2; Int 3; Int 4; Int 5].
Proof.
  split; [reflexivity|].
  exact (proj1 (ids_sequential_without_delete
                  [AddTodo "Buy milk"; GetTodos; AddTodo ""] eq_refl)).
Defined.

Lemma run_calls_ids_bounded (calls : list StoreCall) :
  forall (s : Store) (k : Z),
    Z.of_nat (List.length s) <= k ->
    Forall (fun n => exists z, n = Int z /\ 0 < z <= k) (ids s) ->
    Z.of_nat (List.length (run_calls calls s)) <=
      k + Z.of_nat (List.length (filter is_addTodo calls)) /\
    Forall (fun n => exists z, n = Int z /\
                     0 < z <= k + Z.of_nat (List.length (filter is_addTodo calls)))
      (ids (run_calls calls s)).
Proof.
  induction calls as [|c calls IH]; intros s k Hl Hs.
  - simpl. rewrite Z.add_0_r. now split.
  - rewrite run_calls_cons. destruct c as [|id|text].
    + apply (IH s k Hl Hs).
    + apply (IH (perform (DeleteTodo id) s) k).
      * simpl.
        pose proof (filter_length_le (fun todo => strict_neq (Todo.id todo) id) s).
        lia.
      * unfold ids in *. rewrite Forall_forall in *. intros n Hn.
        apply in_map_iff in Hn as [t [<- Ht]].
        apply filter_In in Ht as [Ht _]. apply Hs, in_map, Ht.
    + cbn [filter is_addTodo List.length].
      replace (k + Z.of_nat (S (List.length (filter is_addTodo calls))))
        with ((k + 1) + Z.of_nat (List.length (filter is_addTodo calls))) by lia.
      apply (IH (perform (AddTodo text) s) (k + 1)).
      * simpl. unfold Array_push. rewrite length_app. simpl. lia.
      * simpl. unfold Array_push, ids in *. rewrite map_app.
        apply Forall_app. split.
        -- eapply Forall_impl; [|exact Hs].
           intros n [z [E Hz]]. exists z. split; [exact E|lia].
        -- repeat constructor. simpl. eexists. split; [reflexivity|lia].
Qed.

(** X7. Every id of a store reached from the seed state is an integer between
    1 and three plus the number of adds called so far. *)
Theorem reachable_ids_between_1_and_adds :
  forall calls : list StoreCall,
    Forall (fun n => exists z, n = Int z /\
                     0 < z <= 3 + Z.of_nat (List.length (filter is_addTodo calls)))
      (ids (run_calls calls todosData_init)).
Proof.
  intros calls. apply (run_calls_ids_bounded calls todosData_init 3).
  - simpl. lia.
  - repeat constructor; eexists; (split; [reflexivity|lia]).
Qed.

(** X8. No operation sets [completed]: in a store reached from the seed
    state, a record that is completed is the seed record of id 2. *)
Theorem completed_only_the_seed_record :
  forall calls : list StoreCall,
    Forall (fun todo =>
              Todo.completed todo = true ->
              todo = {| Todo.id := Int 2; Todo.text := "Watch Westminster";
                        Todo.completed := true |})
      (run_calls calls todosData_init).
Proof.
  intros calls. apply run_calls_Forall.
  - intros n text H. discriminate H.
  - repeat constructor; simpl; intros H; try discriminate H; reflexivity.
Qed.

(** X9. [getTodos] only reads: leaving the list calls out of a sequence of
    calls changes nothing of the store it ends in. *)
Theorem getTodos_calls_can_be_dropped :
  forall (calls : list StoreCall) (s : Store),
    run_calls (filter (fun c => negb (is_getTodos c)) calls) s =
    run_calls calls s.
Proof.
  induction calls as [|c calls IH]; intros s; [reflexivity|].
  destruct c as [|id|text]; simpl filter; rewrite ?run_calls_cons; apply IH.
Qed.

(** X10. On a store reached from the seed state, deleting an integer id that is
    zero or negative removes nothing: every id held is positive. *)
Theorem delete_nonpositive_id_removes_nothing :
  forall (calls : list StoreCall) (z : Z),
    z <= 0 ->
    deleteTodo (Int z) (run_calls calls todosData_init) =
    (Fulfilled true, run_calls calls todosData_init).
Proof.
  intros calls z Hz. rewrite deleteTodo_eq. apply f_equal.
  apply deleteTodo_unchanged_iff.
  assert (R : reachable (run_calls calls todosData_init))
    by (apply reachable_iff_run_calls; now eexists).
  apply reachable_ids_positive in R. unfold ids in R.
  rewrite Forall_forall in *. intros t Ht.
  destruct (R (Todo.id t) (in_map _ _ _ Ht)) as [y [E Hy]].
  rewrite E. simpl. apply Z.eqb_neq. lia.
Qed.

Lemma delete_nonpositive_id_removes_nothing_witness :
  deleteTodo (Int (-5)) (run_calls [AddTodo "Buy milk"] todosData_init) =
  (Fulfilled true, run_calls [AddTodo "Buy milk"] todosData_init).
Proof.
  apply (delete_nonpositive_id_removes_nothing [AddTodo "Buy milk"] (-5)).
  lia.
Defined.

(** * Further properties of the DELETE handler *)

Lemma or_else_empty (s : string) : or_else (Some s) "" = s.
Proof. now destruct s. Qed.

Lemma request_id (segment : string) : request segment "id" = Some segment.
Proof. reflexivity. Qed.

Lemma DELETE_request (segment : string) :
  DELETE (request segment) =
    let id := parseInt segment 10 in
    if isNaN id then Return invalid_id
    else AwaitDeleteTodo id (fun _ => Return ok).
Proof. unfold DELETE. now rewrite request_id, or_else_empty. Qed.

(** X11. The two handlers are the same: [[id].js], which passes [params.id] to
    [parseInt] as it is, answers every request as [[id].ts] does, an
    absent parameter included ([parseInt] of [undefined] is NaN, as
    [parseInt] of the empty string is). *)
Theorem DELETE_js_agrees_with_DELETE :
  forall params : Params,
    DELETE_js params = DELETE params /\
    forall s : Store, run (DELETE_js params) s = run (DELETE params) s.
Proof.
  intros params.
  assert (E : DELETE_js params = DELETE params).
  { unfold DELETE_js, DELETE.
    destruct (params "id") as [[|c seg]|]; reflexivity. }
  split; [exact E|]. intros s. now rewrite E.
Qed.

(** X12. The handler is idempotent: sent again, a request gets the same answer
    and leaves the store as the first one left it. *)
Theorem DELETE_handler_idempotent :
  forall (params : Params) (s : Store),
    run (DELETE params) (snd (fst (run (DELETE params) s))) =
    run (DELETE params) s.
Proof.
  intros params s. rewrite !run_DELETE.
  destruct (parseInt (or_else (params "id") "") 10) as [z|b|] eqn:E; simpl;
    rewrite ?run_DELETE, ?E, ?filter_idempotent; reflexivity.
Qed.

(** X13. The handler always answers, with status 200 or 400 and no body; it
    calls nothing of the store but [deleteTodo], at most once; and it adds
    no record: the records of the store it leaves were all there before. *)
Theorem DELETE_handler_answers_and_never_adds :
  forall (params : Params) (s : Store),
    exists (response : Response) (s' : Store) (calls : list StoreCall),
      run (DELETE params) s = (Fulfilled response, s', calls) /\
      (status response = 200 \/ status response = 400) /\
      body response = None /\
      forallb is_deleteTodo calls = true /\
      (List.length calls <= 1)%nat /\
      incl s' s /\
      (List.length s' <= List.length s)%nat.
Proof.
  intros params s. rewrite run_DELETE.
  destruct (parseInt (or_else (params "id") "") 10) as [z|b|];
    do 3 eexists; (split; [reflexivity|]); simpl;
    repeat split; auto using incl_refl, incl_filter, filter_length_le.
Qed.

(** ** Decimal numerals through [parseInt] *)

Lemma digitPrefix_string_of_uint (d : Decimal.uint) :
  digitPrefix 10 (DecimalString.NilEmpty.string_of_uint d) = digits_of d.
Proof. induction d; simpl; rewrite ?IHd; reflexivity. Qed.

Lemma fold_digits_acc (d : Decimal.uint) :
  forall acc : positive,
    fold_left (fun a x => a * 10 + x) (digits_of d) (Z.pos acc) =
    Z.pos (Pos.of_uint_acc d acc).
Proof.
  induction d; intros acc; cbn [digits_of Pos.of_uint_acc fold_left];
    [reflexivity|..]; rewrite <- IHd; f_equal; lia.
Qed.

Lemma mathInt_digits_of (d : Decimal.uint) :
  mathInt 10 (digits_of d) = Z.of_N (Pos.of_uint d).
Proof.
  unfold mathInt.
  induction d; cbn [digits_of Pos.of_uint fold_left Z.of_N];
    [reflexivity|exact IHd|..]; apply (fold_digits_acc d).
Qed.

Lemma string_of_uint_not_trimmed (d : Decimal.uint) :
  stripSign (trimStart (DecimalString.NilEmpty.string_of_uint d)) =
  (1, DecimalString.NilEmpty.string_of_uint d).
Proof. destruct d; reflexivity. Qed.

Lemma parseInt_string_of_uint (sign : Z) (p : positive) :
  match digitPrefix 10
          (DecimalString.NilEmpty.string_of_uint (Pos.to_uint p)) with
  | [] => NaN
  | digits => ofInteger (sign * mathInt 10 digits)
  end = ofInteger (sign * Z.pos p).
Proof.
  rewrite digitPrefix_string_of_uint.
  pose proof (mathInt_digits_of (Pos.to_uint p)) as M.
  rewrite DecimalPos.Unsigned.of_to in M. simpl Z.of_N in M.
  destruct (digits_of (Pos.to_uint p)) as [|x xs] eqn:D.
  - discriminate M.
  - now rewrite M.
Qed.

Lemma NilZero_string_of_pos (p : positive) :
  DecimalString.NilZero.string_of_uint (Pos.to_uint p) =
  DecimalString.NilEmpty.string_of_uint (Pos.to_uint p).
Proof.
  pose proof (DecimalPos.Unsigned.to_uint_nonnil p) as N.
  now destruct (Pos.to_uint p).
Qed.

(** [parseInt] reads the decimal numeral of an integer back as that
    integer, rounded to a double. *)
Lemma parseInt_decimal (z : Z) : parseInt (decimal z) 10 = ofInteger z.
Proof.
  rewrite parseInt_10_unfold. unfold decimal.
  destruct z as [|p|p]; [reflexivity| |]; simpl Z.to_int;
    cbn [DecimalString.NilZero.string_of_int]; rewrite NilZero_string_of_pos.
  - rewrite string_of_uint_not_trimmed. cbn [fst snd].
    apply (parseInt_string_of_uint 1 p).
  - cbn [trimStart]. change (isWhiteSpace "-") with false. cbn [stripSign fst snd].
    apply (parseInt_string_of_uint (-1) p).
Qed.

(** X14. Round trip of an id through the path: for every integer [z] of
    magnitude below [2^53], the request [DELETE /api/todos/<z>] with [z]
    written in decimal invokes [deleteTodo] with exactly [z] and is
    answered with 200. *)
Theorem DELETE_decimal_id_deletes_that_id :
  forall (z : Z) (s : Store),
    Z.abs z < 2 ^ 53 ->
    parseInt (decimal z) 10 = Int z /\
    run (DELETE (request (decimal z))) s =
      (Fulfilled ok, snd (deleteTodo (Int z) s), [DeleteTodo (Int z)]).
Proof.
  intros z s Hz.
  assert (P : parseInt (decimal z) 10 = Int z)
    by (rewrite parseInt_decimal; now apply ofInteger_exact).
  split; [exact P|].
  now rewrite DELETE_request, P.
Qed.

Lemma DELETE_decimal_id_deletes_that_id_witness :
  Z.abs 3 < 2 ^ 53 /\
  run (DELETE (request "3")) todosData_init =
    (Fulfilled ok,
     [ {| Todo.id := Int 1; Todo.text := "Learn Kung Fu"; Todo.completed := false |};
       {| Todo.id := Int 2; Todo.text := "Watch Westminster"; Todo.completed := true |} ],
     [DeleteTodo (Int 3)]).
Proof.
  split; [reflexivity|].
  apply (DELETE_decimal_id_deletes_that_id 3 todosData_init). reflexivity.
Defined.

(** X15. White space before the id is ignored: a path parameter with a leading
    white-space character is handled as the parameter without it. *)
Theorem DELETE_ignores_leading_white_space :
  forall (c : ascii) (segment : string) (s : Store),
    isWhiteSpace c = true ->
    run (DELETE (request (String c segment))) s =
    run (DELETE (request segment)) s.
Proof.
  intros c segment s Hc. rewrite !DELETE_request.
  assert (E : parseInt (String c segment) 10 = parseInt segment 10).
  { unfold parseInt. cbn [trimStart]. now rewrite Hc. }
  now rewrite E.
Qed.

Lemma DELETE_ignores_leading_white_space_witness :
  isWhiteSpace " " = true /\
  run (DELETE (request " 2")) todosData_init =
  run (DELETE (request "2")) todosData_init.
Proof.
  split; [reflexivity|].
  apply (DELETE_ignores_leading_white_space " " "2" todosData_init).
  reflexivity.
Defined.

(** * Properties of the sign-in handlers *)

Module SigninProperties.

Import Signin.

Lemma list_ascii_of_string_app (a b : string) :
  list_ascii_of_string (a ++ b) =
  (list_ascii_of_string a ++ list_ascii_of_string b)%list.
Proof. induction a as [|c a IH]; simpl; [reflexivity|now rewrite IH]. Qed.

Lemma encode_char_target (c : ascii) :
  forallb isTargetChar
    (list_ascii_of_string
       (if isUnreserved c then String c EmptyString
        else String.concat EmptyString (map percentEncode (utf8 (code c)))))
  = true.
Proof. destruct c as [[] [] [] [] [] [] [] []]; reflexivity. Qed.

(** [encodeURIComponent] gives nothing but unreserved characters and
    [%]-escapes, whatever the string. *)
Lemma encodeURIComponent_target (s : string) :
  forallb isTargetChar (list_ascii_of_string (encodeURIComponent s)) = true.
Proof.
  induction s as [|c s IH]; [reflexivity|].
  cbn [encodeURIComponent].
  rewrite list_ascii_of_string_app, forallb_app, IH, encode_char_target.
  reflexivity.
Qed.

Ltac settle p := destruct p as [|?|?]; cbn; try discriminate; try tauto.

(** X16. Without both credentials neither handler reaches the provider or the
    cookie jar: when the form lacks the e-mail or the password, or has an
    empty one, the first handler answers 400 with a redirect to the error
    page after reading the form and nothing else, and the second calls
    neither [signInWithPassword] nor [cookies.set]. *)
Theorem missing_credentials_never_reach_the_provider :
  forall (w : World) (fd : FormData),
    request_formData w = Fulfilled fd ->
    falsy (option_map toString (fd "email")) ||
    falsy (option_map toString (fd "password")) = true ->
    run POST_redirect w =
      (Fulfilled
         {| body := None; status := 400;
            headers :=
              [("HX-Redirect",
                "/api/error?message=Email%20and%20password%20are%20required")] |},
       [RequestFormData]) /\
    filter is_auth_call (snd (run POST_alert w)) = [].
Proof.
  intros w fd Hfd Hc. unfold POST_redirect, POST_alert. cbn.
  rewrite Hfd. cbn. rewrite Hc. cbn. split; [reflexivity|].
  destruct (container_create w) as [|[]|]; cbn; try reflexivity.
  destruct (renderToString w "error" "Email and password are required");
    reflexivity.
Qed.

Lemma missing_credentials_never_reach_the_provider_witness :
  run POST_redirect
    (fulfilled_world (form (Some (Text "ada@example.org")) None)
       {| data := None; error := None |}) =
    (Fulfilled
       {| body := None; status := 400;
          headers :=
            [("HX-Redirect",
              "/api/error?message=Email%20and%20password%20are%20required")] |},
     [RequestFormData]).
Proof.
  apply (missing_credentials_never_reach_the_provider
           (fulfilled_world (form (Some (Text "ada@example.org")) None)
              {| data := None; error := None |})
           (form (Some (Text "ada@example.org")) None));
    reflexivity.
Defined.

(** Case analysis on a run: on how the form settles, on the credentials,
    and on what the provider and the renderer answer. *)
Ltac run_cases w :=
  unfold POST_redirect, POST_alert; cbn;
  destruct (request_formData w) as [|fd|] eqn:Hform; cbn;
  try match goal with
  | |- context [falsy ?a || falsy ?b] =>
      destruct (falsy a || falsy b) eqn:Hcred; cbn
  end;
  try match goal with
  | |- context [signInWithPassword w ?a ?b] =>
      destruct (signInWithPassword w a b)
        as [|[[[[s|]]|] [e|]]|] eqn:Hsign; cbn
  end;
  repeat match goal with
  | |- context [container_create w] =>
      destruct (container_create w) as [|[]|]; cbn
  | |- context [renderToString w ?t ?m] =>
      destruct (renderToString w t m) as [|?|]; cbn
  end.

(** X17. The first handler sets cookies exactly when it answers 200. *)
Theorem POST_redirect_cookies_iff_200 :
  forall w : World,
    existsb is_CookiesSet (snd (run POST_redirect w)) = true <->
    exists r, fst (run POST_redirect w) = Fulfilled r /\ status r = 200.
Proof.
  intros w. run_cases w;
    (split; [intros H; try discriminate H; eexists; split; reflexivity
            | intros [r [E S]]; try discriminate E;
              try (injection E as <-; discriminate S); reflexivity]).
Qed.

(** X18. An answer 200 of the first handler means the provider accepted the
    submitted credentials: the form held a non-empty e-mail and password,
    the provider, asked with exactly these, gave a session and no error,
    and the calls were the form, the sign-in and the two cookies holding
    the tokens of that session, on path [/]; the answer redirects to the
    dashboard. *)
Theorem POST_redirect_200_only_with_a_session :
  forall (w : World) (r : Response),
    fst (run POST_redirect w) = Fulfilled r ->
    status r = 200 ->
    exists (fd : FormData) (email password : string) (d : AuthData) (s : Session),
      request_formData w = Fulfilled fd /\
      option_map toString (fd "email") = Some email /\ email <> "" /\
      option_map toString (fd "password") = Some password /\ password <> "" /\
      signInWithPassword w email password =
        Fulfilled {| data := Some d; error := None |} /\
      session d = Some s /\
      snd (run POST_redirect w) =
        [RequestFormData; SignInWithPassword email password;
         CookiesSet "sb-access-token" (access_token s) "/";
         CookiesSet "sb-refresh-token" (refresh_token s) "/"] /\
      r = {| body := None; status := 200;
             headers := [("HX-Redirect", "/dashboard")] |}.
Proof.
  intros w r. run_cases w; intros E S; try discriminate E;
    try (injection E as <-; discriminate S).
  injection E as <-.
  apply Bool.orb_false_iff in Hcred as [He Hp].
  destruct (option_map toString (fd "email")) as [[|c email]|] eqn:Ee;
    try discriminate He.
  destruct (option_map toString (fd "password")) as [[|c' password]|] eqn:Ep;
    try discriminate Hp.
  exists fd, (String c email), (String c' password), {| session := Some s |}, s.
  cbn in Hsign. repeat split; try assumption; discriminate.
Qed.

Lemma POST_redirect_200_only_with_a_session_witness :
  exists (email password : string) (s : Session),
    snd (run POST_redirect
           (fulfilled_world
              (form (Some (Text "ada@example.org")) (Some (Text "secret")))
              {| data := Some {| session := Some {| access_token := "A";
                                                    refresh_token := "R" |} |};
                 error := None |})) =
      [RequestFormData; SignInWithPassword email password;
       CookiesSet "sb-access-token" (access_token s) "/";
       CookiesSet "sb-refresh-token" (refresh_token s) "/"].
Proof.
  destruct (POST_redirect_200_only_with_a_session
              (fulfilled_world
                 (form (Some (Text "ada@example.org")) (Some (Text "secret")))
                 {| data := Some {| session := Some {| access_token := "A";
                                                       refresh_token := "R" |} |};
                    error := None |})
              {| body := None; status := 200;
                 headers := [("HX-Redirect", "/dashboard")] |}
              eq_refl eq_refl)
    as [fd [email [password [d [s H]]]]].
  exists email, password, s. apply H.
Defined.

(** X19. The second handler answers 200 whatever happens.  Its answer either
    redirects to the dashboard, with no body, after the two cookies were
    set, or is an HTML fragment, the rendered alert, and then no cookie
    was set. *)
Theorem POST_alert_always_200 :
  forall (w : World) (r : Response),
    fst (run POST_alert w) = Fulfilled r ->
    status r = 200 /\
    ((r = {| body := None; status := 200;
             headers := [("HX-Redirect", "/dashboard")] |} /\
      List.length (filter is_CookiesSet (snd (run POST_alert w))) = 2%nat) \/
     (headers r = [("Content-Type", "text/html")] /\
      body r <> None /\
      filter is_CookiesSet (snd (run POST_alert w)) = [])).
Proof.
  intros w r. run_cases w; intros E; try discriminate E;
    injection E as <-; (split; [reflexivity|]);
    try (left; split; reflexivity);
    right; repeat split; discriminate.
Qed.

Lemma POST_alert_always_200_witness :
  status {| body := Some "<div>Invalid login credentials</div>"; status := 200;
            headers := [("Content-Type", "text/html")] |} = 200.
Proof.
  apply (POST_alert_always_200
           (fulfilled_world
              (form (Some (Text "ada@example.org")) (Some (Text "secret")))
              {| data := None;
                 error := Some {| message := "Invalid login credentials" |} |})).
  reflexivity.
Defined.

(** X20. The two handlers do the same to the provider and to the cookie jar:
    in every world, their calls of [signInWithPassword] and of
    [cookies.set] are the same, in the same order. *)
Theorem handlers_make_the_same_auth_calls :
  forall w : World,
    filter is_auth_call (snd (run POST_redirect w)) =
    filter is_auth_call (snd (run POST_alert w)).
Proof. intros w. run_cases w; reflexivity. Qed.

(** X21. The second handler does not throw: when the promises it awaits are
    all fulfilled, so is its own, whatever the provider answers. *)
Theorem POST_alert_fulfilled_when_awaited_are :
  forall (w : World) (fd : FormData),
    request_formData w = Fulfilled fd ->
    (forall email password,
       exists r, signInWithPassword w email password = Fulfilled r) ->
    container_create w = Fulfilled tt ->
    (forall type message,
       exists html, renderToString w type message = Fulfilled html) ->
    exists r, fst (run POST_alert w) = Fulfilled r.
Proof.
  intros w fd Hfd Hs Hc Hr. unfold POST_alert. cbn. rewrite Hfd. cbn.
  destruct (falsy (option_map toString (fd "email")) ||
            falsy (option_map toString (fd "password"))); cbn.
  - rewrite Hc. cbn.
    destruct (Hr "error" "Email and password are required") as [html ->].
    cbn. now eexists.
  - destruct (Hs (narrowed (option_map toString (fd "email")))
                 (narrowed (option_map toString (fd "password")))) as [r ->].
    cbn. destruct r as [[[[s|]]|] [e|]]; cbn; try (now eexists);
      rewrite Hc; cbn;
      match goal with
      | |- context [renderToString w ?t ?m] => destruct (Hr t m) as [html ->]
      end; cbn; now eexists.
Qed.

Lemma POST_alert_fulfilled_when_awaited_are_witness :
  exists r,
    fst (run POST_alert
           (fulfilled_world
              (form (Some (Text "ada@example.org")) (Some (Text "secret")))
              {| data := Some {| session := None |}; error := None |})) =
    Fulfilled r.
Proof.
  apply (POST_alert_fulfilled_when_awaited_are
           (fulfilled_world
              (form (Some (Text "ada@example.org")) (Some (Text "secret")))
              {| data := Some {| session := None |}; error := None |})
           (form (Some (Text "ada@example.org")) (Some (Text "secret"))));
    try reflexivity; intros; eexists; reflexivity.
Defined.



(** X23. Whatever message the provider reports, it reaches the redirect header
    percent-encoded only: every header of every answer of the first
    handler is an [HX-Redirect] whose value is made of unreserved
    characters, [%], [/], [?] and [=], so it holds no line break, no space
    and no [&]. *)
Theorem POST_redirect_header_is_encoded :
  forall (w : World) (r : Response),
    fst (run POST_redirect w) = Fulfilled r ->
    Forall (fun header =>
              fst header = "HX-Redirect" /\
              forallb isTargetChar (list_ascii_of_string (snd header)) = true)
      (headers r).
Proof.
  intros w r. run_cases w; intros E; try discriminate E;
    injection E as <-; cbn; repeat constructor;
    apply (encodeURIComponent_target (message e)).
Qed.

Lemma POST_redirect_header_is_encoded_witness :
  headers
    {| body := None; status := 401;
       headers :=
         [("HX-Redirect",
           "/api/error?message=Invalid%20login%0D%0ASet-Cookie%3A%20x%3D1")] |} =
  [("HX-Redirect",
    "/api/error?message=Invalid%20login%0D%0ASet-Cookie%3A%20x%3D1")] /\
  Forall (fun header =>
            fst header = "HX-Redirect" /\
            forallb isTargetChar (list_ascii_of_string (snd header)) = true)
    [("HX-Redirect",
      "/api/error?message=Invalid%20login%0D%0ASet-Cookie%3A%20x%3D1")].
Proof.
  split; [reflexivity|].
  apply (POST_redirect_header_is_encoded
           (fulfilled_world
              (form (Some (Text "ada@example.org")) (Some (Text "secret")))
              {| data := None;
                 error := Some {| message :=
                   String "I" (String "n" (String "v" (String "a" (String "l"
                   (String "i" (String "d" (String " " (String "l" (String "o"
                   (String "g" (String "i" (String "n"
                   (String (ascii_of_nat 13) (String (ascii_of_nat 10)
                   "Set-Cookie: x=1")))))))))))))) |} |})
           {| body := None; status := 401;
              headers :=
                [("HX-Redirect",
                  "/api/error?message=Invalid%20login%0D%0ASet-Cookie%3A%20x%3D1")] |}).
  reflexivity.
Defined.

End SigninProperties.
